(** * WorkFlow-Agent-Engine: a shallow embedding of the two graph engines

    The repository holds two traversal engines over the same idea of a graph
    of named steps:

    - [workflow_engine] embeds [src/workflow_engine.py]: [Node], [Edge] and
      [Workflow], whose [execute] walks the graph breadth first with a
      visited set ("Discipline A" in the specification);
    - [app] embeds [src/app/models.py] and [src/app/engine.py]: the typed
      [State], and [Engine], whose [execute] follows one successor at a time
      under a ceiling of [MAX_STEPS] steps ("Discipline B").

    Python objects that are mutated in place are modelled by explicit state
    passing: a method of an object [self] is a computation in the monad [M]
    over the object, which keeps the object as the method left it also when
    the method raises.  Wall-clock fields ([created_at], [updated_at] and the
    [timestamp] of a history entry) are left out: they are readings of
    [datetime.utcnow()] and no property below reads them. *)

From stdpp Require Import gmap strings list fin_maps.
From Stdlib Require Import ZArith.

#[local] Set Warnings "-register-all".

(** ** Python values, exceptions and the state-and-exception monad *)

(** The dynamically typed values a state mapping holds (the JSON-like
    fragment: [None], booleans, integers, strings, lists and mappings). *)
Inductive Value : Type :=
| VNone
| VBool (b : bool)
| VInt (n : Z)
| VStr (s : string)
| VList (l : list Value)
| VDict (d : list (string * Value)).

(** Exceptions (subclasses of [Exception]).  [ValueError] is raised by the
    engines themselves, [KeyError] by a failed [dict] subscript,
    [ValidationError] by the typed state's constructor; [Error] stands for
    any exception object created by caller code, with its class name and the
    text [str(e)] gives. *)
Inductive exn : Type :=
| ValueError (msg : string)
| KeyError (key : string)
| ValidationError (msg : string)
| Error (class msg : string).

(** [str(e)].  For a [KeyError] Python shows the [repr] of the key, written
    here for a key without quote or escape characters. *)
Definition str (e : exn) : string :=
  match e with
  | ValueError msg => msg
  | KeyError key => "'" +:+ key +:+ "'"
  | ValidationError msg => msg
  | Error _ msg => msg
  end.

Inductive result (A : Type) : Type :=
| Ok (a : A)
| Raise (e : exn).
Arguments Ok {A} a.
Arguments Raise {A} e.

(** A computation on a mutable object of type [S]: it returns the object as
    it left it, and either a value or the exception it raised. *)
Definition M (S A : Type) : Type := S -> S * result A.

#[global] Instance M_ret {S} : MRet (M S) := λ A a σ, (σ, Ok a).
#[global] Instance M_bind {S} : MBind (M S) := λ A B f m σ,
  match m σ with
  | (σ', Ok a) => f a σ'
  | (σ', Raise e) => (σ', Raise e)
  end.

Definition raise {S A} (e : exn) : M S A := λ σ, (σ, Raise e).
Definition gets {S A} (f : S -> A) : M S A := λ σ, (σ, Ok (f σ)).
Definition modify {S} (f : S -> S) : M S unit := λ σ, (f σ, Ok tt).

(** [a or b] on an optional string: [None] and the empty string are falsy. *)
Definition or_else (a : option string) (b : string) : string :=
  match a with
  | Some s => if decide (s = "") then b else s
  | None => b
  end.

(** ** src/workflow_engine.py *)

Module workflow_engine.

(** The workflow state is a raw [Dict[str, Any]]. *)
Abbreviation State := (gmap string Value).

Module NodeStatus.
Inductive t : Type := PENDING | RUNNING | COMPLETED | FAILED.

Definition value (s : t) : string :=
  match s with
  | PENDING => "pending"
  | RUNNING => "running"
  | COMPLETED => "completed"
  | FAILED => "failed"
  end.
End NodeStatus.

(** What a call [function(state)] of a node's bound operation does: it
    returns a mapping, or it raises.  The operation receives the state
    object itself and the repository's operations write into it before
    returning it, so a raise also tells how the operation left the mapping
    it was handed.  Operations and predicates are functions here, so a call
    always comes back: termination below is that of the engine's loops. *)
Inductive outcome : Type :=
| Returns (result : State)
| Raises (e : exn) (state_left : State).

Module Node.
Record t : Type := mk {
  node_id : string;
  function : State -> outcome;
  name : string;
  status : NodeStatus.t;
  error : option string
}.

(** [Node.__init__] *)
Definition init (node_id : string) (function : State -> outcome)
    (name : option string) : t :=
  {| node_id := node_id;
     function := function;
     name := or_else name node_id;
     status := NodeStatus.PENDING;
     error := None |}.

Definition set_status (s : NodeStatus.t) (self : t) : t :=
  {| node_id := node_id self; function := function self; name := name self;
     status := s; error := error self |}.

Definition set_error (e : option string) (self : t) : t :=
  {| node_id := node_id self; function := function self; name := name self;
     status := status self; error := e |}.

(** [Node.execute]: the node as the call leaves it, and what the call did
    (the [except] clause re-raises). *)
Definition execute (self : t) (state : State) : t * outcome :=
  let self := set_status NodeStatus.RUNNING self in
  match function self state with
  | Returns result => (set_status NodeStatus.COMPLETED self, Returns result)
  | Raises e state_left =>
      (set_error (Some (str e)) (set_status NodeStatus.FAILED self),
       Raises e state_left)
  end.

(** [Node.reset] *)
Definition reset (self : t) : t :=
  set_error None (set_status NodeStatus.PENDING self).
End Node.

Module Edge.
(** A condition is a Python callable on the state: it answers with a
    value, of which only the truth value is used, or it raises. *)
Record t : Type := mk {
  from_node : string;
  to_node : string;
  condition : option (State -> result bool)
}.

(** [Edge.should_traverse] *)
Definition should_traverse (self : t) (state : State) : result bool :=
  match condition self with
  | None => Ok true
  | Some condition => condition state
  end.
End Edge.

Module WorkflowStatus.
Inductive t : Type := CREATED | RUNNING | COMPLETED | FAILED.

Definition value (s : t) : string :=
  match s with
  | CREATED => "created"
  | RUNNING => "running"
  | COMPLETED => "completed"
  | FAILED => "failed"
  end.
End WorkflowStatus.

(** An entry of [execution_history] (the [execution_entry] dict). *)
Module Entry.
Record t : Type := mk {
  node_id : string;
  node_name : string;
  status : string;
  error : option string
}.

Definition set_status (s : string) (self : t) : t :=
  {| node_id := node_id self; node_name := node_name self;
     status := s; error := error self |}.

Definition set_error (e : string) (self : t) : t :=
  {| node_id := node_id self; node_name := node_name self;
     status := status self; error := Some e |}.
End Entry.

Module Workflow.
Record t : Type := mk {
  workflow_id : string;
  name : string;
  nodes : gmap string Node.t;
  edges : list Edge.t;
  state : State;
  status : WorkflowStatus.t;
  start_node : option string;
  end_nodes : list string;
  execution_history : list Entry.t
}.

(** [Workflow.__init__]; [uuid4] is the string [str(uuid.uuid4())] would
    give. *)
Definition init (uuid4 : string) (workflow_id name : option string) : t :=
  let workflow_id := or_else workflow_id uuid4 in
  {| workflow_id := workflow_id;
     name := or_else name ("workflow_" +:+ String.substring 0 8 workflow_id);
     nodes := ∅;
     edges := [];
     state := ∅;
     status := WorkflowStatus.CREATED;
     start_node := None;
     end_nodes := [];
     execution_history := [] |}.

Definition set_nodes (x : gmap string Node.t) (self : t) : t :=
  {| workflow_id := workflow_id self; name := name self; nodes := x;
     edges := edges self; state := state self; status := status self;
     start_node := start_node self; end_nodes := end_nodes self;
     execution_history := execution_history self |}.

Definition set_edges (x : list Edge.t) (self : t) : t :=
  {| workflow_id := workflow_id self; name := name self; nodes := nodes self;
     edges := x; state := state self; status := status self;
     start_node := start_node self; end_nodes := end_nodes self;
     execution_history := execution_history self |}.

Definition set_state (x : State) (self : t) : t :=
  {| workflow_id := workflow_id self; name := name self; nodes := nodes self;
     edges := edges self; state := x; status := status self;
     start_node := start_node self; end_nodes := end_nodes self;
     execution_history := execution_history self |}.

Definition set_status (x : WorkflowStatus.t) (self : t) : t :=
  {| workflow_id := workflow_id self; name := name self; nodes := nodes self;
     edges := edges self; state := state self; status := x;
     start_node := start_node self; end_nodes := end_nodes self;
     execution_history := execution_history self |}.

Definition set_start_node (x : option string) (self : t) : t :=
  {| workflow_id := workflow_id self; name := name self; nodes := nodes self;
     edges := edges self; state := state self; status := status self;
     start_node := x; end_nodes := end_nodes self;
     execution_history := execution_history self |}.

Definition set_end_nodes (x : list string) (self : t) : t :=
  {| workflow_id := workflow_id self; name := name self; nodes := nodes self;
     edges := edges self; state := state self; status := status self;
     start_node := start_node self; end_nodes := x;
     execution_history := execution_history self |}.

Definition set_execution_history (x : list Entry.t) (self : t) : t :=
  {| workflow_id := workflow_id self; name := name self; nodes := nodes self;
     edges := edges self; state := state self; status := status self;
     start_node := start_node self; end_nodes := end_nodes self;
     execution_history := x |}.

(** [key in self.nodes] *)
Definition known (node_id : string) (self : t) : bool :=
  bool_decide (is_Some (nodes self !! node_id)).

(** [Workflow.add_node] *)
Definition add_node (node : Node.t) : M t unit :=
  modify (λ self, set_nodes (<[Node.node_id node := node]> (nodes self)) self).

(** [Workflow.add_edge] *)
Definition add_edge (edge : Edge.t) : M t unit :=
  src_known ← gets (known (Edge.from_node edge));
  if negb src_known
  then raise (ValueError ("Source node '" +:+ Edge.from_node edge +:+ "' not found"))
  else
    dst_known ← gets (known (Edge.to_node edge));
    if negb dst_known
    then raise (ValueError ("Target node '" +:+ Edge.to_node edge +:+ "' not found"))
    else modify (λ self, set_edges (edges self ++ [edge]) self).

(** [Workflow.set_entry_point] *)
Definition set_entry_point (node_id : string) : M t unit :=
  is_known ← gets (known node_id);
  if negb is_known
  then raise (ValueError ("Node '" +:+ node_id +:+ "' not found"))
  else modify (set_start_node (Some node_id)).

(** [Workflow.add_end_node] *)
Definition add_end_node (node_id : string) : M t unit :=
  is_known ← gets (known node_id);
  if negb is_known
  then raise (ValueError ("Node '" +:+ node_id +:+ "' not found"))
  else
    modify (λ self,
      if decide (node_id ∈ end_nodes self) then self
      else set_end_nodes (end_nodes self ++ [node_id]) self).

(** The [for edge in self.edges] loop of [get_next_nodes], with the list
    [next_nodes] built so far. *)
Fixpoint for_edge (edges : list Edge.t) (current_node_id : string)
    (state : State) (next_nodes : list string) : result (list string) :=
  match edges with
  | [] => Ok next_nodes
  | edge :: edges =>
      if decide (Edge.from_node edge = current_node_id) then
        match Edge.should_traverse edge state with
        | Ok true =>
            for_edge edges current_node_id state (next_nodes ++ [Edge.to_node edge])
        | Ok false => for_edge edges current_node_id state next_nodes
        | Raise e => Raise e
        end
      else for_edge edges current_node_id state next_nodes
  end.

(** [Workflow.get_next_nodes] *)
Definition get_next_nodes (current_node_id : string) : M t (list string) :=
  λ self,
    (self, for_edge (edges self) current_node_id (state self) []).

(** A run in progress: the workflow object, and the calls of bound
    operations made so far, each with the node id and the state it was
    handed.  [calls] is a ghost trace: Python keeps no such list, it is
    what an observer of the calls [self.function(state)] would write
    down. *)
Record run : Type := mk_run {
  self : t;
  calls : list (string * State)
}.

Definition on_self (f : t -> t) : M run unit :=
  modify (λ σ, {| self := f (self σ); calls := calls σ |}).

(** A method of the workflow object, called during a run. *)
Definition call_self {A} (method : M t A) : M run A := λ σ,
  let '(w, r) := method (self σ) in
  ({| self := w; calls := calls σ |}, r).

(** [self.nodes[node_id]] *)
Definition getitem_nodes (node_id : string) : M run Node.t := λ σ,
  match nodes (self σ) !! node_id with
  | Some node => (σ, Ok node)
  | None => (σ, Raise (KeyError node_id))
  end.

(** [node.execute(self.state)] for the node object stored under
    [node_id]: the object is mutated in place, so it is stored back under
    its key. *)
Definition node_execute (node_id : string) (node : Node.t) : M run outcome :=
  λ σ,
    let state := state (self σ) in
    let '(node, r) := Node.execute node state in
    ({| self := set_nodes (<[node_id := node]> (nodes (self σ))) (self σ);
        calls := calls σ ++ [(node_id, state)] |}, Ok r).

(** One turn of [for node_id in current_nodes], with the local variables
    [visited] and [next_nodes] passed in and out. *)
Definition for_node_id_body (node_id : string) (visited : gset string)
    (next_nodes : list string) : M run (gset string * list string) :=
  if decide (node_id ∈ visited) then mret (visited, next_nodes)
  else
    let visited := visited ∪ {[node_id]} in
    node ← getitem_nodes node_id;
    let execution_entry :=
      {| Entry.node_id := node_id; Entry.node_name := Node.name node;
         Entry.status := "started"; Entry.error := None |} in
    r ← node_execute node_id node;
    match r with
    | Raises e state_left =>
        let execution_entry :=
          Entry.set_error (str e) (Entry.set_status "failed" execution_entry) in
        on_self (set_state state_left);;
        on_self (λ w, set_execution_history (execution_history w ++ [execution_entry]) w);;
        raise e
    | Returns result =>
        on_self (set_state result);;
        let execution_entry := Entry.set_status "completed" execution_entry in
        on_self (λ w, set_execution_history (execution_history w ++ [execution_entry]) w);;
        is_end ← gets (λ σ, bool_decide (node_id ∈ end_nodes (self σ)));
        if (is_end : bool) then mret (visited, next_nodes)
        else
          next_node_ids ← call_self (get_next_nodes node_id);
          mret (visited, next_nodes ++ next_node_ids)
    end.

Fixpoint for_node_id (current_nodes : list string) (visited : gset string)
    (next_nodes : list string) : M run (gset string * list string) :=
  match current_nodes with
  | [] => mret (visited, next_nodes)
  | node_id :: current_nodes =>
      '(visited, next_nodes) ← for_node_id_body node_id visited next_nodes;
      for_node_id current_nodes visited next_nodes
  end.

(** [while current_nodes:].  The loop is not structurally recursive, so
    it takes a bound [fuel] on the number of turns and answers [None] when
    the bound is too small. *)
Fixpoint while_current_nodes (fuel : nat) (current_nodes : list string)
    (visited : gset string) (σ : run) : option (run * result unit) :=
  match current_nodes with
  | [] => Some (σ, Ok tt)
  | _ :: _ =>
      match fuel with
      | 0 => None
      | S fuel =>
          match for_node_id current_nodes visited [] σ with
          | (σ, Ok (visited, next_nodes)) =>
              while_current_nodes fuel next_nodes visited σ
          | (σ, Raise e) => Some (σ, Raise e)
          end
      end
  end.

(** [Workflow.execute] with [fuel] turns of the [while] loop at most.
    [initial_state or {}] is the empty mapping for [None]. *)
Definition execute_fuel (fuel : nat) (initial_state : option State) (w : t)
    : option (run * result State) :=
  match start_node w with
  | None =>
      Some ({| self := w; calls := [] |},
            Raise (ValueError "No entry point set for workflow"))
  | Some start =>
      let w := set_state (default ∅ initial_state) w in
      let w := set_status WorkflowStatus.RUNNING w in
      let w := set_execution_history [] w in
      let w := set_nodes (Node.reset <$> nodes w) w in
      match while_current_nodes fuel [start] ∅ {| self := w; calls := [] |} with
      | None => None
      | Some (σ, Ok _) =>
          let σ := {| self := set_status WorkflowStatus.COMPLETED (self σ);
                      calls := calls σ |} in
          Some (σ, Ok (state (self σ)))
      | Some (σ, Raise e) =>
          Some ({| self := set_status WorkflowStatus.FAILED (self σ);
                   calls := calls σ |}, Raise e)
      end
  end.

(** [Workflow.execute]: every turn of the [while] loop but the last marks
    a key of [nodes] visited, so one turn more than there are nodes is
    enough (see [execute_fuel_enough]). *)
Definition execute (initial_state : option State) (w : t)
    : option (run * result State) :=
  execute_fuel (S (size (nodes w))) initial_state w.

(** [Workflow.get_state] *)
Definition get_state (self : t) : State := state self.

(** The workflows the class's methods build: [Workflow()] followed by
    calls of the four configuration methods, whether they raise or not. *)
Inductive built : t -> Prop :=
| built_init uuid4 workflow_id name : built (init uuid4 workflow_id name)
| built_add_node node w : built w -> built (add_node node w).1
| built_add_edge edge w : built w -> built (add_edge edge w).1
| built_set_entry_point node_id w : built w -> built (set_entry_point node_id w).1
| built_add_end_node node_id w : built w -> built (add_end_node node_id w).1.
End Workflow.

End workflow_engine.

(** ** src/app/models.py and src/app/engine.py *)

Module app.

Module State.
(** The pydantic model [State]: six declared fields, and any extra key
    ([extra = "allow"]). *)
Record t : Type := mk {
  original_text : string;
  chunks : list string;
  summaries : list string;
  current_summary : string;
  iteration_count : Z;
  logs : list string;
  extra : gmap string Value
}.

(** [State()] *)
Definition new : t :=
  {| original_text := ""; chunks := []; summaries := [];
     current_summary := ""; iteration_count := 0; logs := [];
     extra := ∅ |}.

Definition set_logs (x : list string) (self : t) : t :=
  {| original_text := original_text self; chunks := chunks self;
     summaries := summaries self; current_summary := current_summary self;
     iteration_count := iteration_count self; logs := x;
     extra := extra self |}.

(** [self.logs.append(line)] *)
Definition logs_append (line : string) (self : t) : t :=
  set_logs (logs self ++ [line]) self.

(** [self.model_dump()]: the declared fields and the extra keys as one
    mapping. *)
Definition model_dump (self : t) : gmap string Value :=
  <["original_text" := VStr (original_text self)]>
  (<["chunks" := VList (VStr <$> chunks self)]>
  (<["summaries" := VList (VStr <$> summaries self)]>
  (<["current_summary" := VStr (current_summary self)]>
  (<["iteration_count" := VInt (iteration_count self)]>
  (<["logs" := VList (VStr <$> logs self)]>
  (extra self)))))).
End State.

Module Node.
Record t : Type := mk {
  id : string;
  name : string;
  tool_name : string
}.
End Node.

Module Edge.
(** The condition is the text of a Python expression. *)
Record t : Type := mk {
  from_node : string;
  to_node : string;
  condition : option string
}.
End Edge.

(** A registered tool: called on the state, it returns a mapping of updates
    (the tools of [src/app/tools.py] read the state and build a new
    mapping), or it raises.  A tool that returns [None] takes the same
    branch of [run_node] as one that returns the empty mapping. *)
Definition Tool : Type := State.t -> result (gmap string Value).

Definition MAX_STEPS : nat := 10.

Module Engine.
Record t : Type := mk {
  node_map : gmap string Node.t;
  edges : list Edge.t;
  registry : gmap string Tool;
  current_state : State.t
}.

Definition set_current_state (x : State.t) (self : t) : t :=
  {| node_map := node_map self; edges := edges self;
     registry := registry self; current_state := x |}.

(** [Engine.__init__]; in [{n.name: n for n in nodes}] a later node
    replaces an earlier one of the same name. *)
Definition init (nodes : list Node.t) (edges : list Edge.t)
    (tool_registry : gmap string Tool) : t :=
  {| node_map := foldl (λ m n, <[Node.name n := n]> m) ∅ nodes;
     edges := edges;
     registry := tool_registry;
     current_state := State.new |}.

(** A run in progress: the engine object, the lines printed, and the
    names [run_node] was called with.  [runs] is a ghost trace. *)
Record run : Type := mk_run {
  self : t;
  stdout : list string;
  runs : list string
}.

Section Externals.
(** Two parts of the program are library code and are taken as given:
    the call of [State] on the keys of a mapping as keyword arguments,
    pydantic's validating constructor, which returns a state or raises;
    and the truth value of
    [eval(condition, {}, {"state": state})], or the exception the
    evaluation raises. *)
Variable new_State : gmap string Value -> result State.t.
Variable eval : string -> State.t -> result bool.

(** The [for edge in candidates] loop of [_get_next_node_name]: the
    lines it prints and the value it returns. *)
Fixpoint for_edge (candidates : list Edge.t) (state : State.t)
    : list string * option string :=
  match candidates with
  | [] => ([], None)
  | edge :: candidates =>
      match Edge.condition edge with
      | None => ([], Some (Edge.to_node edge))
      | Some condition =>
          if decide (condition = "") then ([], Some (Edge.to_node edge))
          else
            match eval condition state with
            | Ok true => ([], Some (Edge.to_node edge))
            | Ok false => for_edge candidates state
            | Raise e =>
                let '(out, next) := for_edge candidates state in
                (("Error evaluating condition '" +:+ condition +:+ "': " +:+ str e)
                   :: out, next)
            end
      end
  end.

(** [Engine._get_next_node_name] *)
Definition _get_next_node_name (self : t) (current_node : string)
    (state : State.t) : list string * option string :=
  let candidates :=
    filter (λ e, Edge.from_node e = current_node) (edges self) in
  for_edge candidates state.

(** [Engine.run_node] *)
Definition run_node (node_name : string) : M t unit :=
  node ← gets (λ self, node_map self !! node_name);
  match node with
  | None => raise (ValueError ("Node " +:+ node_name +:+ " not found"))
  | Some node =>
      tool_function ← gets (λ self, registry self !! Node.tool_name node);
      match tool_function with
      | None =>
          raise (ValueError ("Tool " +:+ Node.tool_name node +:+ " not found"))
      | Some tool_function =>
          modify (λ self,
            set_current_state
              (State.logs_append
                 ("Running node " +:+ node_name +:+ " with tool " +:+ Node.tool_name node)
                 (current_state self)) self);;
          state ← gets current_state;
          match tool_function state with
          | Raise e => raise e
          | Ok updates =>
              if decide (size updates = 0) then mret tt
              else
                let state_data := updates ∪ State.model_dump state in
                match new_State state_data with
                | Raise e => raise e
                | Ok state => modify (set_current_state state)
                end
          end
      end
  end.

(** One turn of the [while] loop of [execute]: the next value of
    [current_node_name]. *)
Definition while_body (current_node_name : string) : M run (option string) :=
  λ σ,
    let σ := {| self := self σ; stdout := stdout σ;
                runs := runs σ ++ [current_node_name] |} in
    match run_node current_node_name (self σ) with
    | (self', Raise e) =>
        ({| self := self'; stdout := stdout σ; runs := runs σ |}, Raise e)
    | (self', Ok _) =>
        let '(out, next_node) :=
          _get_next_node_name self' current_node_name (current_state self') in
        ({| self := self'; stdout := stdout σ ++ out; runs := runs σ |},
         Ok next_node)
    end.

(** [while current_node_name and steps < MAX_STEPS:]; a name is falsy
    when it is [None] or the empty string.  [fuel] bounds the number of
    turns; [MAX_STEPS] turns are always enough (see [execute_total]). *)
Fixpoint while_steps (fuel : nat) (current_node_name : option string)
    (steps : nat) (σ : run) : option (run * result nat) :=
  match current_node_name with
  | None => Some (σ, Ok steps)
  | Some name =>
      if decide (name = "") then Some (σ, Ok steps)
      else if decide (steps < MAX_STEPS) then
        match fuel with
        | 0 => None
        | S fuel =>
            match while_body name σ with
            | (σ, Raise e) => Some (σ, Raise e)
            | (σ, Ok next_node) => while_steps fuel next_node (steps + 1) σ
            end
        end
      else Some (σ, Ok steps)
  end.

(** [Engine.execute] *)
Definition execute (start_node_name : string)
    (initial_input : gmap string Value) (engine : t)
    : option (run * result (gmap string Value)) :=
  match new_State initial_input with
  | Raise e => Some ({| self := engine; stdout := []; runs := [] |}, Raise e)
  | Ok state =>
      let σ := {| self := set_current_state state engine;
                  stdout := []; runs := [] |} in
      match while_steps MAX_STEPS (Some start_node_name) 0 σ with
      | None => None
      | Some (σ, Raise e) => Some (σ, Raise e)
      | Some (σ, Ok steps) =>
          let line :=
            if decide (MAX_STEPS ≤ steps)
            then "Maximum steps reached. Workflow terminated."
            else "Workflow completed successfully." in
          let state := State.logs_append line (current_state (self σ)) in
          Some ({| self := set_current_state state (self σ);
                   stdout := stdout σ; runs := runs σ |},
                Ok (State.model_dump state))
      end
  end.

(** The words of the specification for the choice of the successor: an
    edge is satisfied when it has no predicate or its predicate holds;
    the successor is the destination of the first edge, in declaration
    order, that leaves the current node and is satisfied. *)
Definition satisfied (edge : Edge.t) (state : State.t) : bool :=
  match Edge.condition edge with
  | None => true
  | Some condition =>
      if decide (condition = "") then true
      else match eval condition state with
           | Ok b => b
           | Raise _ => false
           end
  end.

Definition first_satisfied_edge (edges : list Edge.t) (current_node : string)
    (state : State.t) : option Edge.t :=
  List.find
    (λ e, bool_decide (Edge.from_node e = current_node) && satisfied e state)
    edges.
End Externals.
End Engine.

(** A constructor for the typed state that accepts a mapping when every
    declared field it mentions has the declared shape, keeps the other keys
    as extras, and raises otherwise.  It is one behaviour the externally
    given constructor may have, used to run the engine on examples. *)
Module strict.
Definition as_str (v : Value) : option string :=
  match v with VStr s => Some s | _ => None end.

Definition as_int (v : Value) : option Z :=
  match v with VInt n => Some n | _ => None end.

Definition as_str_list (v : Value) : option (list string) :=
  match v with VList l => mapM as_str l | _ => None end.

Definition field {A} (data : gmap string Value) (key : string)
    (as_A : Value -> option A) (default : A) : option A :=
  match data !! key with
  | None => Some default
  | Some v => as_A v
  end.

Definition new_State (data : gmap string Value) : result State.t :=
  let state :=
    original_text ← field data "original_text" as_str "";
    chunks ← field data "chunks" as_str_list [];
    summaries ← field data "summaries" as_str_list [];
    current_summary ← field data "current_summary" as_str "";
    iteration_count ← field data "iteration_count" as_int 0%Z;
    logs ← field data "logs" as_str_list [];
    Some {| State.original_text := original_text; State.chunks := chunks;
            State.summaries := summaries;
            State.current_summary := current_summary;
            State.iteration_count := iteration_count; State.logs := logs;
            State.extra :=
              delete "original_text" (delete "chunks" (delete "summaries"
                (delete "current_summary" (delete "iteration_count"
                  (delete "logs" data))))) |} in
  match state with
  | Some state => Ok state
  | None => Raise (ValidationError "validation error for State")
  end.
End strict.

End app.

(** ** Vocabulary of the properties *)

Section Vocabulary.
Import workflow_engine.

(** The history entry of [node], stored under [node_id], with a status and
    an error text. *)
Definition entry (node_id : string) (node : Node.t) (status : string)
    (error : option string) : Entry.t :=
  {| Entry.node_id := node_id; Entry.node_name := Node.name node;
     Entry.status := status; Entry.error := error |}.

(** The run after the call of the operation of the node under [node_id]:
    the node object as [Node.execute] left it, the state and the history
    entry the loop body wrote, and the call in the trace. *)
Definition after_call (node_id : string) (node : Node.t) (state : State)
    (e : Entry.t) (σ : Workflow.run) : Workflow.run :=
  {| Workflow.self :=
       Workflow.set_execution_history
         (Workflow.execution_history (Workflow.self σ) ++ [e])
         (Workflow.set_state state
            (Workflow.set_nodes
               (<[node_id := node]> (Workflow.nodes (Workflow.self σ)))
               (Workflow.self σ)));
     Workflow.calls :=
       Workflow.calls σ ++ [(node_id, Workflow.state (Workflow.self σ))] |}.

(** A run changes the status and the error of node objects, never their
    bound operation or display name. *)
Definition code (node : Node.t) : (State → outcome) * string :=
  (Node.function node, Node.name node).

(** The call [c] of a bound operation returned. *)
Definition returned (G : gmap string ((State → outcome) * string))
    (c : string * State) : Prop :=
  ∀ f nm, G !! c.1 = Some (f, nm) → ∃ r, f c.2 = Returns r.

(** The loop invariant of [execute], for a run of the workflow [w0]. *)
Record Inv (w0 : Workflow.t) (σ : Workflow.run) (visited : gset string) : Prop := {
  inv_code : code <$> Workflow.nodes (Workflow.self σ) = code <$> Workflow.nodes w0;
  inv_edges : Workflow.edges (Workflow.self σ) = Workflow.edges w0;
  inv_end_nodes : Workflow.end_nodes (Workflow.self σ) = Workflow.end_nodes w0;
  inv_NoDup : NoDup (Workflow.calls σ).*1;
  inv_calls : ∀ n, n ∈ (Workflow.calls σ).*1 → n ∈ visited;
  inv_visited : visited ⊆ dom (Workflow.nodes w0);
  inv_returned : Forall (returned (code <$> Workflow.nodes w0)) (Workflow.calls σ)
}.

(** How a run ended with the exception [e]: either every call returned
    (the exception is a [KeyError] or comes from a predicate), or the last
    call raised [e] and the last entry of the history records it. *)
Definition failure (w : Workflow.t) (σ : Workflow.run) (e : exn) : Prop :=
  Forall (returned (code <$> Workflow.nodes w)) (Workflow.calls σ) ∨
  ∃ cs n s f nm state_left h,
    Workflow.calls σ = cs ++ [(n, s)] ∧
    Forall (returned (code <$> Workflow.nodes w)) cs ∧
    (code <$> Workflow.nodes w) !! n = Some (f, nm) ∧
    f s = Raises e state_left ∧
    Workflow.execution_history (Workflow.self σ) =
      h ++ [{| Entry.node_id := n; Entry.node_name := nm;
               Entry.status := "failed"; Entry.error := Some (str e) |}].

(** What holds when the loop is left by an exception [e]. *)
Record Failed (w0 : Workflow.t) (σ : Workflow.run) (e : exn) : Prop := {
  failed_NoDup : NoDup (Workflow.calls σ).*1;
  failed_cause : failure w0 σ e
}.

(** The workflow at the start of the [try] block of [execute]. *)
Definition started (initial_state : option State) (w : Workflow.t) : Workflow.t :=
  Workflow.set_nodes (Node.reset <$> Workflow.nodes w)
    (Workflow.set_execution_history []
       (Workflow.set_status WorkflowStatus.RUNNING
          (Workflow.set_state (default ∅ initial_state) w))).

(** The line [run_node] appends to the logs before it calls the tool. *)
Definition running_line (node_name : string) (node : app.Node.t) : string :=
  "Running node " +:+ node_name +:+ " with tool " +:+ app.Node.tool_name node.

End Vocabulary.

(** ** Example graphs *)

Module examples.
Import workflow_engine.

(** Operations: one that writes a key and returns the state, one that
    returns the empty mapping, one that raises. *)
Definition writes (key : string) (v : Value) : State -> outcome :=
  λ state, Returns (<[key := v]> state).

Definition returns_nothing : State -> outcome := λ _, Returns ∅.

Definition boom : exn := Error "RuntimeError" "boom".

Definition raises_boom : State -> outcome := λ state, Raises boom state.

Definition nodeA : Node.t := Node.init "A" (writes "a" (VInt 1)) None.
Definition nodeB : Node.t := Node.init "B" (writes "b" (VInt 2)) (Some "second").
Definition nodeC : Node.t := Node.init "C" (writes "c" (VInt 3)) None.

Definition empty_workflow : Workflow.t := Workflow.init "0f8fad5b-d9cb" None None.

Definition with_A : Workflow.t := (Workflow.add_node nodeA empty_workflow).1.

(** The chain A -> B -> C with terminal C and start A. *)
Definition chain : Workflow.t :=
  let w := (Workflow.add_node nodeB with_A).1 in
  let w := (Workflow.add_node nodeC w).1 in
  let w := (Workflow.add_edge (Edge.mk "A" "B" None) w).1 in
  let w := (Workflow.add_edge (Edge.mk "B" "C" None) w).1 in
  let w := (Workflow.set_entry_point "A" w).1 in
  (Workflow.add_end_node "C" w).1.

(** One node, which returns the empty mapping. *)
Definition forgetful : Workflow.t :=
  let w := (Workflow.add_node (Node.init "A" returns_nothing None) empty_workflow).1 in
  (Workflow.set_entry_point "A" w).1.

(** The run of [forgetful] at the start of its only turn, from a state
    with one key. *)
Definition forgetful_start : Workflow.run :=
  {| Workflow.self := started (Some {[ "k" := VInt 1 ]}) forgetful;
     Workflow.calls := [] |}.

(** One node, which raises. *)
Definition failing_node : Node.t := Node.init "A" raises_boom None.

Definition failing : Workflow.t :=
  let w := (Workflow.add_node failing_node empty_workflow).1 in
  (Workflow.set_entry_point "A" w).1.

Definition failed_run : Workflow.run :=
  {| Workflow.self :=
       {| Workflow.workflow_id := "0f8fad5b-d9cb";
          Workflow.name := "workflow_0f8fad5b";
          Workflow.nodes :=
            {[ "A" := {| Node.node_id := "A"; Node.function := raises_boom;
                         Node.name := "A"; Node.status := NodeStatus.FAILED;
                         Node.error := Some "boom" |} ]};
          Workflow.edges := [];
          Workflow.state := ∅;
          Workflow.status := WorkflowStatus.FAILED;
          Workflow.start_node := Some "A";
          Workflow.end_nodes := [];
          Workflow.execution_history :=
            [{| Entry.node_id := "A"; Entry.node_name := "A";
                Entry.status := "failed"; Entry.error := Some "boom" |}] |};
     Workflow.calls := [("A", ∅)] |}.




(** Engines.  The tool [noop] returns no update; the expression "boom"
    raises, any other expression holds. *)
Definition noop : app.Tool := λ _, Ok ∅.

Definition registry : gmap string app.Tool := {[ "noop" := noop ]}.

Definition eval (condition : string) (state : app.State.t) : result bool :=
  if decide (condition = "boom")
  then Raise (Error "NameError" "name 'boom' is not defined")
  else Ok true.

Definition loop_node : app.Node.t := app.Node.mk "1" "loop" "noop".

(** A node with an unconditional edge to itself. *)
Definition self_loop : app.Engine.t :=
  app.Engine.init [loop_node] [app.Edge.mk "loop" "loop" None] registry.



(** Two nodes, one of them of empty name, with unconditional edges both
    ways. *)
Definition nameless : app.Engine.t :=
  app.Engine.init [app.Node.mk "1" "a" "noop"; app.Node.mk "2" "" "noop"]
    [app.Edge.mk "a" "" None; app.Edge.mk "" "a" None] registry.
End examples.

(** * Properties *)

(** A closed decidable proposition holds when its decision computes to
    true. *)
Ltac by_decision := apply (bool_decide_unpack _); vm_compute; exact I.

(** ** Configuration of a workflow *)

Section Configuration.
Import workflow_engine.

Lemma known_dom (node_id : string) (w : Workflow.t) :
  Workflow.known node_id w = true ↔ node_id ∈ dom (Workflow.nodes w).
Proof.
  unfold Workflow.known. rewrite bool_decide_eq_true. symmetry. apply elem_of_dom.
Qed.

Lemma unknown_dom (node_id : string) (w : Workflow.t) :
  Workflow.known node_id w = false ↔ node_id ∉ dom (Workflow.nodes w).
Proof.
  rewrite <- known_dom. destruct (Workflow.known node_id w); split; congruence.
Qed.

Lemma add_edge_unknown_source (edge : Edge.t) (w : Workflow.t) :
  Edge.from_node edge ∉ dom (Workflow.nodes w) →
  Workflow.add_edge edge w =
    (w, Raise (ValueError ("Source node '" +:+ Edge.from_node edge +:+ "' not found"))).
Proof.
  intros H%unknown_dom. unfold Workflow.add_edge, mbind, M_bind, gets.
  rewrite H. reflexivity.
Qed.

Lemma add_edge_unknown_target (edge : Edge.t) (w : Workflow.t) :
  Edge.from_node edge ∈ dom (Workflow.nodes w) →
  Edge.to_node edge ∉ dom (Workflow.nodes w) →
  Workflow.add_edge edge w =
    (w, Raise (ValueError ("Target node '" +:+ Edge.to_node edge +:+ "' not found"))).
Proof.
  intros Hs%known_dom Ht%unknown_dom. unfold Workflow.add_edge, mbind, M_bind, gets.
  rewrite Hs. simpl. rewrite Ht. reflexivity.
Qed.

Lemma add_edge_known (edge : Edge.t) (w : Workflow.t) :
  Edge.from_node edge ∈ dom (Workflow.nodes w) →
  Edge.to_node edge ∈ dom (Workflow.nodes w) →
  Workflow.add_edge edge w =
    (Workflow.set_edges (Workflow.edges w ++ [edge]) w, Ok tt).
Proof.
  intros Hs%known_dom Ht%known_dom. unfold Workflow.add_edge, mbind, M_bind, gets.
  rewrite Hs. simpl. rewrite Ht. reflexivity.
Qed.
End Configuration.

(** C4. Adding an edge whose source or destination is not a key of the
    workflow's nodes raises a [ValueError], and the workflow, its edge list
    in particular, is as it was before the call. *)
Theorem C4_add_edge_unknown_endpoint
    (w : workflow_engine.Workflow.t) (edge : workflow_engine.Edge.t) :
  workflow_engine.Edge.from_node edge ∉ dom (workflow_engine.Workflow.nodes w) ∨
  workflow_engine.Edge.to_node edge ∉ dom (workflow_engine.Workflow.nodes w) →
  (∃ msg, (workflow_engine.Workflow.add_edge edge w).2 = Raise (ValueError msg)) ∧
  (workflow_engine.Workflow.add_edge edge w).1 = w ∧
  workflow_engine.Workflow.edges (workflow_engine.Workflow.add_edge edge w).1 =
    workflow_engine.Workflow.edges w.
Proof.
  intros H.
  destruct (decide (workflow_engine.Edge.from_node edge ∈ dom (workflow_engine.Workflow.nodes w)))
    as [Hs | Hs].
  - destruct H as [H | H]; [contradiction |].
    rewrite (add_edge_unknown_target _ _ Hs H). simpl. eauto.
  - rewrite (add_edge_unknown_source _ _ Hs). simpl. eauto.
Qed.
Section Terminals.
Import workflow_engine.

Lemma add_end_node_unknown (node_id : string) (w : Workflow.t) :
  node_id ∉ dom (Workflow.nodes w) →
  Workflow.add_end_node node_id w =
    (w, Raise (ValueError ("Node '" +:+ node_id +:+ "' not found"))).
Proof.
  intros H%unknown_dom. unfold Workflow.add_end_node, mbind, M_bind, gets.
  rewrite H. reflexivity.
Qed.

Lemma add_end_node_known (node_id : string) (w : Workflow.t) :
  node_id ∈ dom (Workflow.nodes w) →
  Workflow.add_end_node node_id w =
    (if decide (node_id ∈ Workflow.end_nodes w) then w
     else Workflow.set_end_nodes (Workflow.end_nodes w ++ [node_id]) w, Ok tt).
Proof.
  intros H%known_dom. unfold Workflow.add_end_node, mbind, M_bind, gets.
  rewrite H. reflexivity.
Qed.

Lemma add_end_node_end_nodes (node_id : string) (w : Workflow.t) :
  Workflow.end_nodes (Workflow.add_end_node node_id w).1 = Workflow.end_nodes w ∨
  (node_id ∉ Workflow.end_nodes w) ∧
  Workflow.end_nodes (Workflow.add_end_node node_id w).1 =
    Workflow.end_nodes w ++ [node_id].
Proof.
  destruct (decide (node_id ∈ dom (Workflow.nodes w))) as [H | H].
  - rewrite (add_end_node_known _ _ H). simpl.
    destruct (decide (node_id ∈ Workflow.end_nodes w)); [left | right]; auto.
  - rewrite (add_end_node_unknown _ _ H). left. reflexivity.
Qed.

(** The configuration methods never list a terminal twice. *)
Lemma built_end_nodes_NoDup (w : Workflow.t) :
  Workflow.built w → NoDup (Workflow.end_nodes w).
Proof.
  induction 1 as [| node w _ IH | edge w _ IH | node_id w _ IH | node_id w _ IH].
  - simpl. constructor.
  - exact IH.
  - unfold Workflow.add_edge, mbind, M_bind, gets.
    destruct (Workflow.known (Edge.from_node edge) w); simpl; [| exact IH].
    destruct (Workflow.known (Edge.to_node edge) w); simpl; exact IH.
  - unfold Workflow.set_entry_point, mbind, M_bind, gets.
    destruct (Workflow.known node_id w); simpl; exact IH.
  - destruct (add_end_node_end_nodes node_id w) as [-> | [Hn ->]]; [exact IH |].
    apply NoDup_app. split; [exact IH |]. split.
    + intros x Hx ->%list_elem_of_singleton. contradiction.
    + apply NoDup_singleton.
Qed.

Lemma count_occ_NoDup_elem (x : string) (l : list string) :
  NoDup l → x ∈ l → count_occ String.string_dec l x = 1.
Proof.
  intros Hnd Hx. apply NoDup_ListNoDup in Hnd. apply list_elem_of_In in Hx.
  pose proof (proj1 (List.NoDup_count_occ String.string_dec l) Hnd x) as Hle.
  pose proof (proj1 (count_occ_In String.string_dec l x) Hx) as Hgt. lia.
Qed.

(** C9. [add_end_node] raises for an id that is not a key of the nodes and
    leaves the workflow as it was; for a known id, on a workflow built by
    the class's methods, both calls return, the second call leaves the
    terminal list as the first call left it, and the id is in that list
    exactly once. *)
Theorem C9_add_end_node_idempotent (w : Workflow.t) (node_id : string) :
  Workflow.built w →
  (node_id ∉ dom (Workflow.nodes w) →
     (∃ msg, (Workflow.add_end_node node_id w).2 = Raise (ValueError msg)) ∧
     (Workflow.add_end_node node_id w).1 = w) ∧
  (node_id ∈ dom (Workflow.nodes w) →
     let w1 := (Workflow.add_end_node node_id w).1 in
     let w2 := (Workflow.add_end_node node_id w1).1 in
     (Workflow.add_end_node node_id w).2 = Ok tt ∧
     (Workflow.add_end_node node_id w1).2 = Ok tt ∧
     Workflow.end_nodes w2 = Workflow.end_nodes w1 ∧
     count_occ String.string_dec (Workflow.end_nodes w2) node_id = 1).
Proof.
  intros Hb. split.
  - intros H. rewrite (add_end_node_unknown _ _ H). simpl. eauto.
  - intros H w1 w2.
    assert (Hb1 : Workflow.built w1) by (apply Workflow.built_add_end_node, Hb).
    assert (H1 : node_id ∈ dom (Workflow.nodes w1)).
    { subst w1. rewrite (add_end_node_known _ _ H). simpl.
      destruct (decide (node_id ∈ Workflow.end_nodes w)); exact H. }
    assert (Hin : node_id ∈ Workflow.end_nodes w1).
    { subst w1. rewrite (add_end_node_known _ _ H). simpl.
      destruct (decide (node_id ∈ Workflow.end_nodes w)); simpl; [assumption |].
      apply elem_of_app. right. apply list_elem_of_singleton. reflexivity. }
    assert (E2 : w2 = w1).
    { subst w2. rewrite (add_end_node_known _ _ H1). simpl.
      destruct (decide (node_id ∈ Workflow.end_nodes w1)); [reflexivity | contradiction]. }
    split; [rewrite (add_end_node_known _ _ H); reflexivity |].
    split; [rewrite (add_end_node_known _ _ H1); reflexivity |].
    rewrite E2. split; [reflexivity |].
    apply count_occ_NoDup_elem; [apply built_end_nodes_NoDup, Hb1 | exact Hin].
Qed.

(** C10. Adding two nodes of the same id one after the other raises
    nothing; the nodes then map the id to the second node, every other
    key, the edge list and the start node are as before the two calls. *)
Theorem C10_add_node_replaces (w : Workflow.t) (n1 n2 : Node.t) :
  Node.node_id n1 = Node.node_id n2 →
  let w1 := (Workflow.add_node n1 w).1 in
  let w2 := (Workflow.add_node n2 w1).1 in
  (Workflow.add_node n1 w).2 = Ok tt ∧
  (Workflow.add_node n2 w1).2 = Ok tt ∧
  Workflow.nodes w2 !! Node.node_id n1 = Some n2 ∧
  Workflow.nodes w2 = <[Node.node_id n2 := n2]> (Workflow.nodes w) ∧
  Workflow.edges w2 = Workflow.edges w ∧
  Workflow.start_node w2 = Workflow.start_node w.
Proof.
  intros Hid w1 w2. subst w1 w2. simpl. rewrite Hid.
  repeat split; try reflexivity.
  - apply lookup_insert_eq.
  - apply insert_insert_eq.
Qed.
End Terminals.

(** ** The breadth-first run of [Workflow.execute] *)

Section Run.
Import workflow_engine.

(** What the body of the [for] loop does to the run, case by case. *)
Lemma body_visited node_id visited next_nodes σ :
  node_id ∈ visited →
  Workflow.for_node_id_body node_id visited next_nodes σ =
    (σ, Ok (visited, next_nodes)).
Proof.
  intros H. unfold Workflow.for_node_id_body.
  destruct (decide (node_id ∈ visited)); [reflexivity | contradiction].
Qed.

Lemma body_missing node_id visited next_nodes σ :
  node_id ∉ visited →
  Workflow.nodes (Workflow.self σ) !! node_id = None →
  Workflow.for_node_id_body node_id visited next_nodes σ =
    (σ, Raise (KeyError node_id)).
Proof.
  intros H Hn. unfold Workflow.for_node_id_body.
  destruct (decide (node_id ∈ visited)); [contradiction |].
  unfold mbind, M_bind, Workflow.getitem_nodes. rewrite Hn. reflexivity.
Qed.

Lemma body_raises node_id visited next_nodes σ node e state_left :
  node_id ∉ visited →
  Workflow.nodes (Workflow.self σ) !! node_id = Some node →
  Node.function node (Workflow.state (Workflow.self σ)) = Raises e state_left →
  Workflow.for_node_id_body node_id visited next_nodes σ =
    (after_call node_id
       (Node.set_error (Some (str e))
          (Node.set_status NodeStatus.FAILED (Node.set_status NodeStatus.RUNNING node)))
       state_left (entry node_id node "failed" (Some (str e))) σ,
     Raise e).
Proof.
  intros H Hn Hf. unfold Workflow.for_node_id_body.
  destruct (decide (node_id ∈ visited)); [contradiction |].
  unfold mbind, M_bind, Workflow.getitem_nodes. rewrite Hn.
  unfold Workflow.node_execute, Node.execute. simpl. rewrite Hf. reflexivity.
Qed.

Lemma body_returns node_id visited next_nodes σ node result :
  node_id ∉ visited →
  Workflow.nodes (Workflow.self σ) !! node_id = Some node →
  Node.function node (Workflow.state (Workflow.self σ)) = Returns result →
  Workflow.for_node_id_body node_id visited next_nodes σ =
    (after_call node_id
       (Node.set_status NodeStatus.COMPLETED (Node.set_status NodeStatus.RUNNING node))
       result (entry node_id node "completed" None) σ,
     if decide (node_id ∈ Workflow.end_nodes (Workflow.self σ))
     then Ok (visited ∪ {[node_id]}, next_nodes)
     else
       match Workflow.for_edge (Workflow.edges (Workflow.self σ)) node_id result [] with
       | Ok next_node_ids => Ok (visited ∪ {[node_id]}, next_nodes ++ next_node_ids)
       | Raise e => Raise e
       end).
Proof.
  intros H Hn Hf. unfold Workflow.for_node_id_body.
  destruct (decide (node_id ∈ visited)); [contradiction |].
  unfold mbind, M_bind, Workflow.getitem_nodes. rewrite Hn.
  unfold Workflow.node_execute, Node.execute. simpl. rewrite Hf. simpl.
  unfold after_call, entry. simpl.
  destruct (decide (node_id ∈ Workflow.end_nodes (Workflow.self σ))) as [He | He].
  - rewrite bool_decide_eq_true_2 by exact He. reflexivity.
  - rewrite bool_decide_eq_false_2 by exact He.
    unfold Workflow.call_self, Workflow.get_next_nodes. simpl.
    destruct (Workflow.for_edge _ _ _ _); reflexivity.
Qed.
End Run.

Section Invariant.
Import workflow_engine.

Lemma code_insert (nodes : gmap string Node.t) node_id node node' :
  nodes !! node_id = Some node → code node' = code node →
  code <$> <[node_id := node']> nodes = code <$> nodes.
Proof.
  intros Hn Hc. rewrite fmap_insert, Hc. apply insert_id.
  rewrite lookup_fmap, Hn. reflexivity.
Qed.

Lemma Inv_lookup w0 σ visited node_id node :
  Inv w0 σ visited →
  Workflow.nodes (Workflow.self σ) !! node_id = Some node →
  (code <$> Workflow.nodes w0) !! node_id = Some (code node) ∧
  node_id ∈ dom (Workflow.nodes w0).
Proof.
  intros HI Hn.
  assert (H : (code <$> Workflow.nodes w0) !! node_id = Some (code node)).
  { rewrite <- (inv_code _ _ _ HI), lookup_fmap, Hn. reflexivity. }
  split; [exact H |].
  apply elem_of_dom. rewrite lookup_fmap in H.
  destruct (Workflow.nodes w0 !! node_id); [eauto | discriminate].
Qed.

Lemma Inv_fresh w0 σ visited node_id :
  Inv w0 σ visited → node_id ∉ visited →
  NoDup (Workflow.calls σ ++ [(node_id, Workflow.state (Workflow.self σ))]).*1.
Proof.
  intros HI Hv. rewrite fmap_app. apply NoDup_app.
  split; [apply (inv_NoDup _ _ _ HI) |]. split.
  - intros x Hx ->%list_elem_of_singleton. apply Hv, (inv_calls _ _ _ HI), Hx.
  - apply NoDup_singleton.
Qed.

Lemma Inv_after_return w0 σ visited node_id node node' result e :
  Inv w0 σ visited → node_id ∉ visited →
  Workflow.nodes (Workflow.self σ) !! node_id = Some node →
  code node' = code node →
  Node.function node (Workflow.state (Workflow.self σ)) = Returns result →
  Inv w0 (after_call node_id node' result e σ) (visited ∪ {[node_id]}).
Proof.
  intros HI Hv Hn Hc Hf.
  destruct (Inv_lookup _ _ _ _ _ HI Hn) as [HG Hdom].
  split; simpl.
  - rewrite (code_insert _ _ _ _ Hn Hc). apply (inv_code _ _ _ HI).
  - apply (inv_edges _ _ _ HI).
  - apply (inv_end_nodes _ _ _ HI).
  - apply (Inv_fresh _ _ _ _ HI Hv).
  - intros n. rewrite fmap_app. intros [Hin | Hin]%elem_of_app.
    + apply elem_of_union_l, (inv_calls _ _ _ HI), Hin.
    + simpl in Hin. apply list_elem_of_singleton in Hin. subst n.
      apply elem_of_union_r, elem_of_singleton. reflexivity.
  - intros x [Hx | Hx]%elem_of_union.
    + apply (inv_visited _ _ _ HI), Hx.
    + apply elem_of_singleton in Hx. subst x. exact Hdom.
  - apply Forall_app. split; [apply (inv_returned _ _ _ HI) |].
    apply Forall_singleton. intros f nm. simpl. rewrite HG.
    unfold code. intros [= <- <-]. eauto.
Qed.

Lemma body_Inv w0 σ visited next_nodes node_id σ' R :
  Inv w0 σ visited →
  Workflow.for_node_id_body node_id visited next_nodes σ = (σ', R) →
  match R with
  | Ok (visited', next_nodes') =>
      Inv w0 σ' visited' ∧ visited ⊆ visited' ∧
      (visited' = visited → next_nodes' = next_nodes)
  | Raise e => Failed w0 σ' e
  end.
Proof.
  intros HI Hbody.
  destruct (decide (node_id ∈ visited)) as [Hv | Hv].
  { rewrite (body_visited _ _ _ _ Hv) in Hbody. injection Hbody as <- <-.
    split; [exact HI |]. split; [reflexivity | tauto]. }
  destruct (Workflow.nodes (Workflow.self σ) !! node_id) as [node |] eqn:Hn.
  2:{ rewrite (body_missing _ _ _ _ Hv Hn) in Hbody. injection Hbody as <- <-.
      split; [apply (inv_NoDup _ _ _ HI) | left; apply (inv_returned _ _ _ HI)]. }
  destruct (Inv_lookup _ _ _ _ _ HI Hn) as [HG Hdom].
  destruct (Node.function node (Workflow.state (Workflow.self σ)))
    as [result | e state_left] eqn:Hf.
  - rewrite (body_returns _ _ _ _ _ _ Hv Hn Hf) in Hbody. injection Hbody as <- <-.
    pose proof (Inv_after_return w0 σ visited node_id node
      (Node.set_status NodeStatus.COMPLETED (Node.set_status NodeStatus.RUNNING node))
      result (entry node_id node "completed" None) HI Hv Hn eq_refl Hf) as HI'.
    assert (Hne : visited ∪ {[node_id]} ≠ visited).
    { intros Heq. apply Hv. rewrite <- Heq.
      apply elem_of_union_r, elem_of_singleton. reflexivity. }
    assert (Hsub : visited ⊆ visited ∪ {[node_id]}) by apply union_subseteq_l.
    destruct (decide (node_id ∈ Workflow.end_nodes (Workflow.self σ))).
    + split; [exact HI' |]. split; [exact Hsub | contradiction].
    + destruct (Workflow.for_edge _ _ _ _) as [ids | e].
      * split; [exact HI' |]. split; [exact Hsub | contradiction].
      * split; [apply (inv_NoDup _ _ _ HI') | left; apply (inv_returned _ _ _ HI')].
  - rewrite (body_raises _ _ _ _ _ _ _ Hv Hn Hf) in Hbody. injection Hbody as <- <-.
    split; simpl.
    + apply (Inv_fresh _ _ _ _ HI Hv).
    + right. eexists _, _, _, _, _, _, _.
      split; [reflexivity |]. split; [apply (inv_returned _ _ _ HI) |].
      split; [exact HG |]. split; [exact Hf | reflexivity].
Qed.

Lemma shrink_unvisited (all visited visited' : gset string) :
  visited ⊆ visited' → visited' ⊆ all → visited' ≠ visited →
  all ∖ visited' ⊂ all ∖ visited.
Proof.
  intros Hsub Hall Hne. split.
  - intros x [Hx Hn]%elem_of_difference. apply elem_of_difference.
    split; [exact Hx |]. intros Hv. apply Hn, Hsub, Hv.
  - intros Hsup. apply Hne. apply leibniz_equiv. intros x. split; [| apply Hsub].
    intros Hx. destruct (decide (x ∈ visited)) as [Hv | Hv]; [exact Hv |].
    assert (Hd : x ∈ all ∖ visited) by (apply elem_of_difference; auto).
    apply Hsup, elem_of_difference in Hd. destruct Hd as [_ Hd]. contradiction.
Qed.

Lemma for_node_id_Inv w0 current_nodes :
  ∀ σ visited next_nodes σ' R,
  Inv w0 σ visited →
  Workflow.for_node_id current_nodes visited next_nodes σ = (σ', R) →
  match R with
  | Ok (visited', next_nodes') =>
      Inv w0 σ' visited' ∧ visited ⊆ visited' ∧
      (visited' = visited → next_nodes' = next_nodes)
  | Raise e => Failed w0 σ' e
  end.
Proof.
  induction current_nodes as [| node_id current_nodes IH];
    intros σ visited next_nodes σ' R HI Hfor.
  - injection Hfor as <- <-. split; [exact HI |]. split; [reflexivity | tauto].
  - simpl in Hfor. unfold mbind, M_bind in Hfor.
    destruct (Workflow.for_node_id_body node_id visited next_nodes σ)
      as [σ1 [[visited1 next1] | e]] eqn:Hbody.
    + pose proof (body_Inv _ _ _ _ _ _ _ HI Hbody) as (HI1 & Hsub1 & Hsame1).
      pose proof (IH _ _ _ _ _ HI1 Hfor) as HR.
      destruct R as [[visited' next'] | e]; [| exact HR].
      destruct HR as (HI' & Hsub' & Hsame').
      split; [exact HI' |]. split; [etrans; eassumption |].
      intros ->. assert (visited1 = visited) as ->.
      { apply leibniz_equiv. apply (anti_symm (⊆)); assumption. }
      rewrite Hsame' by reflexivity. apply Hsame1. reflexivity.
    + injection Hfor as <- <-. apply (body_Inv _ _ _ _ _ _ _ HI Hbody).
Qed.

(** The result of the [while] loop, for every sufficient [fuel]. *)
Lemma while_current_nodes_total w0 (k : nat) :
  ∀ current_nodes visited σ,
  Inv w0 σ visited →
  size (dom (Workflow.nodes w0) ∖ visited) ≤ k →
  ∃ σ' R,
    (∀ fuel, k < fuel →
       Workflow.while_current_nodes fuel current_nodes visited σ = Some (σ', R)) ∧
    match R with
    | Ok _ => ∃ visited', Inv w0 σ' visited'
    | Raise e => Failed w0 σ' e
    end.
Proof.
  induction k as [k IH] using lt_wf_ind.
  intros current_nodes visited σ HI Hk.
  destruct current_nodes as [| node_id current_nodes].
  { exists σ, (Ok tt). split; [intros [| fuel] _; reflexivity | eauto]. }
  destruct (Workflow.for_node_id (node_id :: current_nodes) visited [] σ)
    as [σ1 [[visited1 next1] | e]] eqn:Hfor.
  - pose proof (for_node_id_Inv _ _ _ _ _ _ _ HI Hfor) as (HI1 & Hsub & Hsame).
    destruct (decide (visited1 = visited)) as [-> | Hne].
    + rewrite Hsame in Hfor by reflexivity.
      exists σ1, (Ok tt). split; [| eauto].
      intros [| fuel] Hlt; [lia |]. cbn [Workflow.while_current_nodes].
      rewrite Hfor. destruct fuel; reflexivity.
    + assert (Hlt : size (dom (Workflow.nodes w0) ∖ visited1)
                    < size (dom (Workflow.nodes w0) ∖ visited)).
      { apply subset_size, shrink_unvisited;
          [exact Hsub | apply (inv_visited _ _ _ HI1) | exact Hne]. }
      destruct k as [| k]; [lia |].
      destruct (IH k (Nat.lt_succ_diag_r k) next1 visited1 σ1 HI1 ltac:(lia))
        as (σ' & R & Hrun & Hpost).
      exists σ', R. split; [| exact Hpost].
      intros [| fuel] Hfuel; [lia |]. cbn [Workflow.while_current_nodes].
      rewrite Hfor. apply Hrun. lia.
  - pose proof (for_node_id_Inv _ _ _ _ _ _ _ HI Hfor) as HF.
    exists σ1, (Raise e). split; [| exact HF].
    intros [| fuel] Hlt; [lia |]. cbn [Workflow.while_current_nodes].
    rewrite Hfor. reflexivity.
Qed.
End Invariant.

Section Execute.
Import workflow_engine.

Lemma code_reset (nodes : gmap string Node.t) :
  code <$> (Node.reset <$> nodes) = code <$> nodes.
Proof. rewrite <- map_fmap_compose. apply map_fmap_ext. reflexivity. Qed.

Lemma Inv_started initial_state w :
  Inv (started initial_state w)
    {| Workflow.self := started initial_state w; Workflow.calls := [] |} ∅.
Proof.
  split; simpl; try reflexivity.
  - constructor.
  - intros n Hn. inversion Hn.
  - apply empty_subseteq.
  - constructor.
Qed.

Lemma execute_fuel_started fuel initial_state w start :
  Workflow.start_node w = Some start →
  Workflow.execute_fuel fuel initial_state w =
    match Workflow.while_current_nodes fuel [start] ∅
            {| Workflow.self := started initial_state w; Workflow.calls := [] |} with
    | None => None
    | Some (σ, Ok _) =>
        Some ({| Workflow.self :=
                   Workflow.set_status WorkflowStatus.COMPLETED (Workflow.self σ);
                 Workflow.calls := Workflow.calls σ |},
              Ok (Workflow.state (Workflow.self σ)))
    | Some (σ, Raise e) =>
        Some ({| Workflow.self :=
                   Workflow.set_status WorkflowStatus.FAILED (Workflow.self σ);
                 Workflow.calls := Workflow.calls σ |}, Raise e)
    end.
Proof. intros H. unfold Workflow.execute_fuel. rewrite H. reflexivity. Qed.

(** [execute] returns or raises; more fuel than there are nodes gives the
    same result, whatever the amount. *)
Lemma execute_fuel_enough (initial_state : option State) (w : Workflow.t) :
  ∃ σ R,
    (∀ fuel, size (Workflow.nodes w) < fuel →
       Workflow.execute_fuel fuel initial_state w = Some (σ, R)) ∧
    NoDup (Workflow.calls σ).*1 ∧
    match R with
    | Ok state =>
        Workflow.status (Workflow.self σ) = WorkflowStatus.COMPLETED ∧
        state = Workflow.state (Workflow.self σ) ∧
        Forall (returned (code <$> Workflow.nodes w)) (Workflow.calls σ)
    | Raise e =>
        Workflow.start_node w = None ∧ Workflow.calls σ = [] ∨
        Workflow.status (Workflow.self σ) = WorkflowStatus.FAILED ∧ failure w σ e
    end.
Proof.
  destruct (Workflow.start_node w) as [start |] eqn:Hstart.
  2:{ eexists _, _. split.
      - intros fuel _. unfold Workflow.execute_fuel. rewrite Hstart. reflexivity.
      - simpl. split; [constructor | left; split; reflexivity]. }
  destruct (while_current_nodes_total (started initial_state w)
              (size (Workflow.nodes w)) [start] ∅ _ (Inv_started initial_state w))
    as (σ & R & Hrun & Hpost).
  { rewrite difference_empty_L, size_dom. simpl. rewrite map_size_fmap. reflexivity. }
  assert (HG : code <$> Workflow.nodes (started initial_state w)
               = code <$> Workflow.nodes w) by apply code_reset.
  destruct R as [[] | e].
  - destruct Hpost as [visited HI].
    eexists _, _. split.
    { intros fuel Hfuel.
      rewrite (execute_fuel_started _ _ _ _ Hstart), (Hrun fuel Hfuel). reflexivity. }
    simpl. split; [apply (inv_NoDup _ _ _ HI) |]. split; [reflexivity |].
    split; [reflexivity |]. rewrite <- HG. apply (inv_returned _ _ _ HI).
  - eexists _, _. split.
    { intros fuel Hfuel.
      rewrite (execute_fuel_started _ _ _ _ Hstart), (Hrun fuel Hfuel). reflexivity. }
    simpl. split; [apply (failed_NoDup _ _ _ Hpost) |]. right.
    split; [reflexivity |]. unfold failure. simpl. rewrite <- HG.
    apply (failed_cause _ _ _ Hpost).
Qed.

(** C5. [Workflow.execute] terminates on every workflow, whatever its
    edges: it returns a state or raises, any larger bound on the turns of
    the [while] loop gives the same run, and no node id occurs twice
    among the calls of bound operations the run made. *)
Theorem C5_execute_terminates_once_per_node
    (initial_state : option State) (w : Workflow.t) :
  ∃ σ R,
    Workflow.execute initial_state w = Some (σ, R) ∧
    (∀ fuel, size (Workflow.nodes w) < fuel →
       Workflow.execute_fuel fuel initial_state w = Some (σ, R)) ∧
    NoDup (Workflow.calls σ).*1.
Proof.
  destruct (execute_fuel_enough initial_state w) as (σ & R & Hrun & Hnd & _).
  exists σ, R. split; [apply Hrun; lia |]. split; [exact Hrun | exact Hnd].
Qed.

(** C3. When a run called the bound operation of a node and the call
    raised, [Workflow.execute] raises that exception, the workflow's
    status is failed, and the last entry of the history carries the node's
    id, the status "failed" and the text of the exception. *)
Theorem C3_node_failure_propagates
    (initial_state : option State) (w : Workflow.t) (σ : Workflow.run)
    (R : result State) (node_id : string) (node : Node.t)
    (state state_left : State) (e : exn) :
  Workflow.execute initial_state w = Some (σ, R) →
  (node_id, state) ∈ Workflow.calls σ →
  Workflow.nodes w !! node_id = Some node →
  Node.function node state = Raises e state_left →
  R = Raise e ∧
  Workflow.status (Workflow.self σ) = WorkflowStatus.FAILED ∧
  ∃ h, Workflow.execution_history (Workflow.self σ) =
         h ++ [{| Entry.node_id := node_id; Entry.node_name := Node.name node;
                  Entry.status := "failed"; Entry.error := Some (str e) |}].
Proof.
  intros Hexec Hcall Hnode Hraise.
  destruct (execute_fuel_enough initial_state w) as (σ' & R' & Hrun & _ & Hpost).
  unfold Workflow.execute in Hexec. rewrite Hrun in Hexec by lia.
  injection Hexec as <- <-.
  assert (HG : (code <$> Workflow.nodes w) !! node_id
               = Some (Node.function node, Node.name node)).
  { rewrite lookup_fmap, Hnode. reflexivity. }
  assert (Hnot : ∀ cs, (node_id, state) ∈ cs →
                   ¬ Forall (returned (code <$> Workflow.nodes w)) cs).
  { intros cs Hin Hall. rewrite Forall_forall in Hall.
    destruct (Hall _ Hin _ _ HG) as [r Hr]. simpl in Hr. congruence. }
  destruct R' as [s | e'].
  - destruct Hpost as (_ & _ & Hall). destruct (Hnot _ Hcall Hall).
  - destruct Hpost as [[_ Hnil] | [Hstatus Hfail]].
    { rewrite Hnil in Hcall. inversion Hcall. }
    destruct Hfail as [Hall | (cs & n & s & f & nm & sl & h & Hcs & Hall & Hn & Hf & Hh)].
    { destruct (Hnot _ Hcall Hall). }
    rewrite Hcs in Hcall. apply elem_of_app in Hcall as [Hin | Hin].
    { destruct (Hnot _ Hin Hall). }
    apply list_elem_of_singleton in Hin. injection Hin as <- <-.
    rewrite HG in Hn. injection Hn as <- <-.
    rewrite Hraise in Hf. injection Hf as <- <-.
    split; [reflexivity |]. split; [exact Hstatus |]. exists h. exact Hh.
Qed.
End Execute.

Section LinearChain.
Import workflow_engine.

Lemma while_current_nodes_nil fuel visited σ :
  Workflow.while_current_nodes fuel [] visited σ = Some (σ, Ok tt).
Proof. destruct fuel; reflexivity. Qed.

(** C7. On a workflow with nodes A, B and C, the unconditional edges A->B
    and B->C, the terminal list [C] and the start node A, whose three
    operations return on the states they are handed, a run from the empty
    state calls A, then B, then C, once each, completes with the state C
    returned, and its history is the three entries of A, B and C, in that
    order, all completed. *)
Theorem C7_linear_chain (w : Workflow.t) (nA nB nC : Node.t) (sA sB sC : State) :
  Workflow.nodes w !! "A" = Some nA →
  Workflow.nodes w !! "B" = Some nB →
  Workflow.nodes w !! "C" = Some nC →
  Workflow.edges w = [Edge.mk "A" "B" None; Edge.mk "B" "C" None] →
  Workflow.end_nodes w = ["C"] →
  Workflow.start_node w = Some "A" →
  Node.function nA ∅ = Returns sA →
  Node.function nB sA = Returns sB →
  Node.function nC sB = Returns sC →
  ∃ σ,
    Workflow.execute (Some ∅) w = Some (σ, Ok sC) ∧
    Workflow.calls σ = [("A", ∅); ("B", sA); ("C", sB)] ∧
    Workflow.execution_history (Workflow.self σ) =
      [entry "A" nA "completed" None; entry "B" nB "completed" None;
       entry "C" nC "completed" None] ∧
    Workflow.status (Workflow.self σ) = WorkflowStatus.COMPLETED.
Proof.
  intros HA HB HC Hedges Hend Hstart HfA HfB HfC.
  destruct (execute_fuel_enough (Some ∅) w) as (σ & R & Hrun & _).
  unfold Workflow.execute. rewrite Hrun by lia.
  specialize (Hrun (3 + size (Workflow.nodes w)) ltac:(lia)).
  rewrite (execute_fuel_started _ _ _ _ Hstart) in Hrun.
  cbn [Nat.add Workflow.while_current_nodes Workflow.for_node_id] in Hrun.
  unfold mbind at 1, M_bind at 1 in Hrun.
  (* the turn of A *)
  rewrite (body_returns "A" ∅ [] _ (Node.reset nA) sA) in Hrun; cycle 1.
  { by_decision. }
  { simpl. rewrite lookup_fmap, HA. reflexivity. }
  { exact HfA. }
  cbn [Workflow.self started Workflow.end_nodes Workflow.edges
       Workflow.set_nodes Workflow.set_execution_history Workflow.set_status
       Workflow.set_state] in Hrun.
  rewrite Hend, Hedges in Hrun.
  rewrite decide_False in Hrun by by_decision.
  cbn [Workflow.for_edge Edge.from_node Edge.to_node Edge.should_traverse
       Edge.condition] in Hrun.
  rewrite decide_True, decide_False in Hrun by by_decision.
  cbn [app mret M_ret Workflow.while_current_nodes Workflow.for_node_id] in Hrun.
  unfold mbind at 1, M_bind at 1 in Hrun.
  (* the turn of B *)
  rewrite (body_returns "B" _ [] _ (Node.reset nB) sB) in Hrun; cycle 1.
  { by_decision. }
  { simpl. rewrite lookup_insert_ne by discriminate.
    rewrite lookup_fmap, HB. reflexivity. }
  { exact HfB. }
  cbn [Workflow.self after_call started Workflow.end_nodes Workflow.edges
       Workflow.set_nodes Workflow.set_execution_history Workflow.set_status
       Workflow.set_state] in Hrun.
  rewrite Hend, Hedges in Hrun.
  rewrite decide_False in Hrun by by_decision.
  cbn [Workflow.for_edge Edge.from_node Edge.to_node Edge.should_traverse
       Edge.condition] in Hrun.
  rewrite decide_False, decide_True in Hrun by by_decision.
  cbn [app mret M_ret Workflow.while_current_nodes Workflow.for_node_id] in Hrun.
  unfold mbind at 1, M_bind at 1 in Hrun.
  (* the turn of C *)
  rewrite (body_returns "C" _ [] _ (Node.reset nC) sC) in Hrun; cycle 1.
  { by_decision. }
  { simpl. rewrite !lookup_insert_ne by discriminate.
    rewrite lookup_fmap, HC. reflexivity. }
  { exact HfC. }
  cbn [Workflow.self after_call started Workflow.end_nodes Workflow.edges
       Workflow.set_nodes Workflow.set_execution_history Workflow.set_status
       Workflow.set_state] in Hrun.
  rewrite Hend in Hrun.
  rewrite decide_True in Hrun by by_decision.
  cbn [mret M_ret Workflow.while_current_nodes] in Hrun.
  rewrite while_current_nodes_nil in Hrun. injection Hrun as <- <-.
  eexists. split; [reflexivity |]. simpl. repeat split.
Qed.
End LinearChain.

(** ** The single-successor run of [Engine.execute] *)

Section SingleSuccessor.
Import app.
Variable new_State : gmap string Value → result State.t.
Variable eval : string → State.t → result bool.

Lemma for_edge_find (candidates : list Edge.t) (state : State.t) :
  (Engine.for_edge eval candidates state).2 =
    Edge.to_node <$> List.find (λ e, Engine.satisfied eval e state) candidates.
Proof.
  induction candidates as [| edge candidates IH]; [reflexivity |].
  simpl. unfold Engine.satisfied at 1.
  destruct (Edge.condition edge) as [condition |]; [| reflexivity].
  destruct (decide (condition = "")); [reflexivity |].
  destruct (eval condition state) as [[] | e]; [reflexivity | exact IH |].
  destruct (Engine.for_edge eval candidates state). exact IH.
Qed.

Lemma find_filter {A} (p q : A → bool) (l : list A) :
  List.find q (List.filter p l) = List.find (λ x, p x && q x) l.
Proof.
  induction l as [| x l IH]; [reflexivity |].
  simpl. destruct (p x); simpl; [rewrite IH; reflexivity | exact IH].
Qed.

Lemma filter_from_node (current_node : string) (edges : list Edge.t) :
  filter (λ e, Edge.from_node e = current_node) edges =
    List.filter (λ e, bool_decide (Edge.from_node e = current_node)) edges.
Proof.
  induction edges as [| e edges IH]; [reflexivity |].
  rewrite filter_cons. simpl. rewrite IH.
  destruct (decide (Edge.from_node e = current_node)) as [H | H].
  - rewrite bool_decide_eq_true_2 by exact H. reflexivity.
  - rewrite bool_decide_eq_false_2 by exact H. reflexivity.
Qed.

Lemma get_next_node_name_find (self : Engine.t) (current_node : string)
    (state : State.t) :
  (Engine._get_next_node_name eval self current_node state).2 =
    Edge.to_node <$>
      Engine.first_satisfied_edge eval (Engine.edges self) current_node state.
Proof.
  unfold Engine._get_next_node_name, Engine.first_satisfied_edge.
  rewrite for_edge_find, filter_from_node, find_filter. reflexivity.
Qed.

Lemma first_satisfied_edge_app (before after : list Edge.t) current_node state :
  Engine.first_satisfied_edge eval (before ++ after) current_node state =
    match Engine.first_satisfied_edge eval before current_node state with
    | Some e => Some e
    | None => Engine.first_satisfied_edge eval after current_node state
    end.
Proof.
  unfold Engine.first_satisfied_edge.
  induction before as [| e before IH]; [reflexivity |].
  simpl. destruct (_ && _); [reflexivity | exact IH].
Qed.

Lemma first_satisfied_edge_filter (edges : list Edge.t) current_node state :
  Engine.first_satisfied_edge eval
    (filter (λ e, Edge.from_node e = current_node) edges) current_node state =
  Engine.first_satisfied_edge eval edges current_node state.
Proof.
  unfold Engine.first_satisfied_edge.
  rewrite filter_from_node, find_filter.
  induction edges as [| e edges IH]; [reflexivity |].
  simpl. rewrite IH. destruct (bool_decide _); reflexivity.
Qed.

(** C8. The successor [_get_next_node_name] returns is the destination of
    the first edge, in declaration order, that leaves the current node and
    is satisfied, and [None] when there is none.  Edges declared after
    such an edge do not change the choice, nor do edges that leave another
    node. *)
Theorem C8_first_declared_satisfied_edge
    (node_map : gmap string Node.t) (registry : gmap string Tool)
    (current_state : State.t) (current_node : string) (state : State.t) :
  let next edges :=
    (Engine._get_next_node_name eval
       (Engine.mk node_map edges registry current_state) current_node state).2 in
  (∀ edges,
     next edges =
       Edge.to_node <$> Engine.first_satisfied_edge eval edges current_node state) ∧
  (∀ edges later,
     next (edges ++ later) =
       match next edges with
       | Some successor => Some successor
       | None => next later
       end) ∧
  (∀ edges,
     next edges = next (filter (λ e, Edge.from_node e = current_node) edges)).
Proof.
  intros next. subst next. simpl. split; [| split].
  - intros edges. apply get_next_node_name_find.
  - intros edges later. rewrite !get_next_node_name_find. simpl.
    rewrite first_satisfied_edge_app.
    destruct (Engine.first_satisfied_edge eval edges current_node state); reflexivity.
  - intros edges. rewrite !get_next_node_name_find. simpl.
    rewrite first_satisfied_edge_filter. reflexivity.
Qed.


Lemma run_node_no_update (self : Engine.t) (node_name : string)
    (node : Node.t) (tool_function : Tool) :
  Engine.node_map self !! node_name = Some node →
  Engine.registry self !! Node.tool_name node = Some tool_function →
  tool_function
    (State.logs_append (running_line node_name node) (Engine.current_state self))
    = Ok ∅ →
  Engine.run_node new_State node_name self =
    (Engine.set_current_state
       (State.logs_append (running_line node_name node) (Engine.current_state self))
       self, Ok tt).
Proof.
  intros Hn Ht Hu. unfold Engine.run_node, mbind, M_bind, gets.
  rewrite Hn. cbv beta iota. unfold Tool in *. rewrite Ht. cbv beta iota.
  unfold modify. cbn [Engine.current_state Engine.set_current_state].
  fold (running_line node_name node). rewrite Hu.
  rewrite decide_True by apply map_size_empty. reflexivity.
Qed.

Lemma model_dump_logs_append (line : string) (state : State.t) (key : string) :
  key ≠ "logs" →
  State.model_dump (State.logs_append line state) !! key =
    State.model_dump state !! key.
Proof.
  intros Hk. unfold State.model_dump, State.logs_append. simpl.
  rewrite !lookup_insert.
  repeat case_decide; subst; try reflexivity; congruence.
Qed.
End SingleSuccessor.

(** ** The two engines side by side *)

Section PredicateFailure.
Import workflow_engine.


End PredicateFailure.

Section MergeAndPredicates.
Import workflow_engine.

(** C1 (amended). A node whose operation returns the empty mapping: in
    [Engine.run_node] the call returns, every key of the dumped state
    other than [logs] keeps its value and [logs] gains the line that
    announces the node; in [Workflow.execute] the running state becomes
    the mapping the operation returned, whatever it is, so after an empty
    mapping no key of the earlier state is left. *)
Theorem C1_empty_update
    (new_State : gmap string Value → result app.State.t)
    (engine : app.Engine.t) (node_name : string) (node : app.Node.t)
    (tool_function : app.Tool)
    (σ : Workflow.run) (node_id : string) (visited : gset string)
    (next_nodes : list string) (wnode : Node.t) (result : State) :
  (app.Engine.node_map engine !! node_name = Some node →
   app.Engine.registry engine !! app.Node.tool_name node = Some tool_function →
   tool_function
     (app.State.logs_append (running_line node_name node)
        (app.Engine.current_state engine)) = Ok ∅ →
   let after := app.Engine.run_node new_State node_name engine in
   after.2 = Ok tt ∧
   app.State.logs (app.Engine.current_state after.1) =
     app.State.logs (app.Engine.current_state engine)
       ++ [running_line node_name node] ∧
   ∀ key, key ≠ "logs" →
     app.State.model_dump (app.Engine.current_state after.1) !! key =
     app.State.model_dump (app.Engine.current_state engine) !! key) ∧
  (node_id ∉ visited →
   Workflow.nodes (Workflow.self σ) !! node_id = Some wnode →
   Node.function wnode (Workflow.state (Workflow.self σ)) = Returns result →
   let after := Workflow.for_node_id_body node_id visited next_nodes σ in
   Workflow.state (Workflow.self after.1) = result ∧
   (result = ∅ → ∀ key, Workflow.state (Workflow.self after.1) !! key = None)).
Proof.
  split.
  - intros Hn Ht Hu after. subst after.
    rewrite (run_node_no_update new_State _ _ _ _ Hn Ht Hu). simpl.
    split; [reflexivity |]. split; [reflexivity |].
    intros key Hkey. apply model_dump_logs_append, Hkey.
  - intros Hv Hn Hf after. subst after.
    rewrite (body_returns _ _ _ _ _ _ Hv Hn Hf). simpl.
    split; [reflexivity |]. intros -> key. apply lookup_empty.
Qed.

End MergeAndPredicates.

(** ** The step ceiling of [Engine.execute] *)

Section StepCeiling.
Import app.
Variable new_State : gmap string Value → result State.t.
Variable eval : string → State.t → result bool.

(** [MAX_STEPS] turns are always enough for the [while] loop. *)
Lemma while_steps_total (fuel : nat) :
  ∀ current_node_name steps σ,
  MAX_STEPS ≤ steps + fuel →
  is_Some (Engine.while_steps new_State eval fuel current_node_name steps σ).
Proof.
  induction fuel as [| fuel IH]; intros current_node_name steps σ Hfuel.
  - destruct current_node_name as [name |]; simpl; [| eauto].
    destruct (decide (name = "")); [eauto |].
    destruct (decide (steps < MAX_STEPS)); [lia | eauto].
  - destruct current_node_name as [name |]; simpl; [| eauto].
    destruct (decide (name = "")); [eauto |].
    destruct (decide (steps < MAX_STEPS)); [| eauto].
    destruct (Engine.while_body new_State eval name σ) as [σ' [next | e]]; [| eauto].
    apply IH. lia.
Qed.

(** [Engine.execute] always returns or raises. *)
Lemma execute_total (start_node_name : string)
    (initial_input : gmap string Value) (engine : Engine.t) :
  is_Some (Engine.execute new_State eval start_node_name initial_input engine).
Proof.
  unfold Engine.execute. destruct (new_State initial_input) as [state | e]; [| eauto].
  destruct (while_steps_total MAX_STEPS (Some start_node_name) 0
              {| Engine.self := Engine.set_current_state state engine;
                 Engine.stdout := []; Engine.runs := [] |})
    as [[σ [steps | e]] ->]; [lia | eauto | eauto].
Qed.



End StepCeiling.

(** ** The properties at concrete inputs *)

Section Witnesses.
Import workflow_engine examples.

(** An edge between two ids, added to a workflow without nodes. *)
Lemma C4_witness :
  ("A" ∉ dom (Workflow.nodes empty_workflow) ∨
   "B" ∉ dom (Workflow.nodes empty_workflow)) ∧
  (Workflow.add_edge (Edge.mk "A" "B" None) empty_workflow).1 = empty_workflow.
Proof.
  assert (H : Edge.from_node (Edge.mk "A" "B" None) ∉ dom (Workflow.nodes empty_workflow) ∨
              Edge.to_node (Edge.mk "A" "B" None) ∉ dom (Workflow.nodes empty_workflow)).
  { left. by_decision. }
  split; [exact H |].
  apply (C4_add_edge_unknown_endpoint empty_workflow (Edge.mk "A" "B" None) H).
Defined.

(** The node A of [with_A] marked terminal twice. *)
Lemma C9_witness :
  Workflow.built with_A ∧
  Workflow.end_nodes
    (Workflow.add_end_node "A" (Workflow.add_end_node "A" with_A).1).1 =
  Workflow.end_nodes (Workflow.add_end_node "A" with_A).1.
Proof.
  assert (H : Workflow.built with_A).
  { apply Workflow.built_add_node, Workflow.built_init. }
  split; [exact H |].
  refine (proj1 (proj2 (proj2 (proj2 (C9_add_end_node_idempotent with_A "A" H) _)))).
  by_decision.
Defined.

(** A second node of id A added after [nodeA]. *)
Lemma C10_witness :
  Node.node_id nodeA = Node.node_id failing_node ∧
  Workflow.nodes
    (Workflow.add_node failing_node (Workflow.add_node nodeA empty_workflow).1).1
    !! "A" = Some failing_node.
Proof.
  split; [reflexivity |].
  refine (proj1 (proj2 (proj2
    (C10_add_node_replaces empty_workflow nodeA failing_node _)))).
  reflexivity.
Defined.

(** The run of [chain], whose three operations each write one key. *)
Lemma C7_witness :
  ∃ σ,
    Workflow.execute (Some ∅) chain =
      Some (σ, Ok {[ "a" := VInt 1; "b" := VInt 2; "c" := VInt 3 ]}) ∧
    Workflow.calls σ =
      [("A", ∅); ("B", {[ "a" := VInt 1 ]});
       ("C", {[ "a" := VInt 1; "b" := VInt 2 ]})] ∧
    Workflow.execution_history (Workflow.self σ) =
      [entry "A" nodeA "completed" None; entry "B" nodeB "completed" None;
       entry "C" nodeC "completed" None] ∧
    Workflow.status (Workflow.self σ) = WorkflowStatus.COMPLETED.
Proof.
  apply (C7_linear_chain chain nodeA nodeB nodeC
           {[ "a" := VInt 1 ]} {[ "a" := VInt 1; "b" := VInt 2 ]}
           {[ "a" := VInt 1; "b" := VInt 2; "c" := VInt 3 ]});
    vm_compute; reflexivity.
Defined.

(** The run of [failing], whose only node raises. *)
Lemma C3_witness :
  Workflow.execute None failing = Some (failed_run, Raise boom) ∧
  Workflow.status (Workflow.self failed_run) = WorkflowStatus.FAILED.
Proof.
  assert (H : Workflow.execute None failing = Some (failed_run, Raise boom)).
  { vm_compute. reflexivity. }
  split; [exact H |].
  refine (proj1 (proj2
    (C3_node_failure_propagates None failing failed_run (Raise boom) "A"
       failing_node ∅ ∅ boom H _ _ _))).
  - apply list_elem_of_here.
  - vm_compute. reflexivity.
  - reflexivity.
Defined.
(** The empty update in [self_loop] and in [forgetful]. *)
Lemma C1_witness :
  (app.Engine.run_node app.strict.new_State "loop" self_loop).2 = Ok tt ∧
  Workflow.state
    (Workflow.self (Workflow.for_node_id_body "A" ∅ [] forgetful_start).1) = ∅.
Proof.
  destruct (C1_empty_update app.strict.new_State self_loop "loop" loop_node noop
              forgetful_start "A" ∅ []
              (Node.reset (Node.init "A" returns_nothing None)) ∅) as [HB HA].
  split.
  - apply HB; vm_compute; reflexivity.
  - apply HA; [apply not_elem_of_empty | vm_compute; reflexivity | reflexivity].
Defined.



End Witnesses.

(** ** Where the code departs from a statement of the specification *)

Section Counterexamples.
Import workflow_engine examples.

(** Against C1 as stated: in [Workflow.execute] a node that returns the
    empty mapping does not leave the keys of the state alone.  Run from
    the state that maps "k" to 1, the workflow [forgetful] completes with
    a state in which "k" is gone. *)
Lemma C1_counterexample :
  ({[ "k" := VInt 1 ]} : State) !! "k" = Some (VInt 1) ∧
  match Workflow.execute (Some {[ "k" := VInt 1 ]}) forgetful with
  | Some (σ, Ok final) =>
      final !! "k" = None ∧ Workflow.state (Workflow.self σ) !! "k" = None ∧
      (Workflow.calls σ).*1 = ["A"]
  | _ => False
  end.
Proof. vm_compute. repeat split. Qed.



(** A successor of empty name ends the run as [None] does: [nameless]
    stops after one step although every edge is unconditional. *)
Lemma empty_name_ends_run :
  match app.Engine.execute app.strict.new_State eval "a" ∅ nameless with
  | Some (σ, R) =>
      app.Engine.runs σ = ["a"] ∧
      app.State.logs (app.Engine.current_state (app.Engine.self σ)) =
        ["Running node a with tool noop"; "Workflow completed successfully."]
  | None => False
  end.
Proof. vm_compute. repeat split. Qed.
End Counterexamples.
